(** * Shallow embedding of the three Rust demo programs

    - [control_flow/src/main.rs]: nested labelled loops accumulating factorials
      over [u32];
    - [data_types/src/main.rs]: [f32]/[f64] literals and mixed arithmetic;
    - [variables/src/main.rs]: immutable, mutable, constant and shadowed
      bindings.

    Observable behaviour is the list of lines written by [println!]. *)

From Stdlib Require Import ZArith Ascii String List Bool Lia.
From Stdlib Require Import SpecFloat.
Import ListNotations.
Local Open Scope string_scope.
Local Open Scope Z_scope.

(** ** Decimal rendering of integers (the [{}] formatting of integers) *)

Definition digit_char (d : Z) : string :=
  String (Ascii.ascii_of_nat (48 + Z.to_nat d)) EmptyString.

(** Digits of [n >= 0], most significant first; [fuel] bounds the number of
    digits. *)
Fixpoint digits_aux (fuel : nat) (n : Z) (acc : string) : string :=
  match fuel with
  | O => acc
  | S f =>
      let acc' := digit_char (n mod 10) ++ acc in
      if n <? 10 then acc' else digits_aux f (n / 10) acc'
  end.

Definition show_nat_Z (n : Z) : string :=
  digits_aux (S (Z.to_nat (Z.log2 n))) n EmptyString.

Definition show_Z (n : Z) : string :=
  if n <? 0 then "-" ++ show_nat_Z (- n) else show_nat_Z n.

(** [floor (log10 n)] for [n > 0]. *)
Fixpoint log10_aux (fuel : nat) (n : Z) : Z :=
  match fuel with
  | O => 0
  | S f => if n <? 10 then 0 else 1 + log10_aux f (n / 10)
  end.

Definition log10 (n : Z) : Z := log10_aux (S (Z.to_nat (Z.log2 n))) n.

(** ** Fixed-width integer arithmetic

    Rust's default (debug) profile checks every [+], [*] and [-] on a
    fixed-width integer and panics on overflow; [None] is that panic. *)

Definition u32_max : Z := 2 ^ 32 - 1.

Definition add_u32 (a b : Z) : option Z :=
  if a + b <=? u32_max then Some (a + b) else None.
Definition mul_u32 (a b : Z) : option Z :=
  if a * b <=? u32_max then Some (a * b) else None.
Definition sub_u32 (a b : Z) : option Z :=
  if b <=? a then Some (a - b) else None.

Definition i32_in_range (a : Z) : bool := (- 2 ^ 31 <=? a) && (a <? 2 ^ 31).
Definition add_i32 (a b : Z) : option Z :=
  if i32_in_range (a + b) then Some (a + b) else None.
Definition mul_i32 (a b : Z) : option Z :=
  if i32_in_range (a * b) then Some (a * b) else None.

(** Process exit status: 0 on return from [main], 101 on a panic. *)
Inductive outcome :=
  | Halted (out : list string)
  | Panicked
  | OutOfFuel.

Definition exit_code (o : outcome) : option Z :=
  match o with
  | Halted _ => Some 0
  | Panicked => Some 101
  | OutOfFuel => None
  end.

(** ** [control_flow/src/main.rs]

<<
fn main() {
    let mut count: u32 = 4;
    let mut result : u32 = 0;
    'counting_up: loop {
        if count == 0 { break; }
        let mut num: u32 = 10;
        let mut factorial : u32 = 1;
        result += loop {
            if num == 1 { break factorial; }
            if count == 0 { continue 'counting_up; }
            factorial *= num;
            num -= 1;
        };
        println!("count = {count}, factorial : {factorial}");
        count -= 1;
    }
    println!("Result = {result}");
}
>>

    One program point per statement of the loops. *)
Module ControlFlow.

Inductive pc :=
  | Outer        (* line 5: [if count == 0 { break; }] *)
  | InnerTop     (* line 11: [if num == 1 { break factorial; }] *)
  | InnerGuard   (* line 14: [if count == 0 { continue 'counting_up; }] *)
  | InnerMul     (* line 17: [factorial *= num;] *)
  | InnerDec     (* line 18: [num -= 1;] *)
  | AfterInner.  (* lines 20-21: print, then [count -= 1;] *)

Definition pc_eqb (p q : pc) : bool :=
  match p, q with
  | Outer, Outer | InnerTop, InnerTop | InnerGuard, InnerGuard
  | InnerMul, InnerMul | InnerDec, InnerDec | AfterInner, AfterInner => true
  | _, _ => false
  end.

Record state := mk_state {
  count : Z;
  result : Z;
  num : Z;
  factorial : Z;
  at_pc : pc;
  out : list string
}.

Inductive step_result :=
  | Next (s : state)
  | Panic
  | Halt (out : list string).

Definition count_line (count factorial : Z) : string :=
  "count = " ++ show_Z count ++ ", factorial : " ++ show_Z factorial.

Definition result_line (result : Z) : string :=
  "Result = " ++ show_Z result.

Definition init : state :=
  {| count := 4; result := 0; num := 0; factorial := 0;
     at_pc := Outer; out := [] |}.

Definition step (s : state) : step_result :=
  match at_pc s with
  | Outer =>
      if count s =? 0
      then Halt (out s ++ [result_line (result s)])%list
      else Next {| count := count s; result := result s; num := 10;
                   factorial := 1; at_pc := InnerTop; out := out s |}
  | InnerTop =>
      if num s =? 1
      then (* [result += loop { .. break factorial; }] *)
        match add_u32 (result s) (factorial s) with
        | Some r => Next {| count := count s; result := r; num := num s;
                            factorial := factorial s; at_pc := AfterInner;
                            out := out s |}
        | None => Panic
        end
      else Next {| count := count s; result := result s; num := num s;
                   factorial := factorial s; at_pc := InnerGuard;
                   out := out s |}
  | InnerGuard =>
      if count s =? 0
      then (* [continue 'counting_up] *)
        Next {| count := count s; result := result s; num := num s;
                factorial := factorial s; at_pc := Outer; out := out s |}
      else Next {| count := count s; result := result s; num := num s;
                   factorial := factorial s; at_pc := InnerMul;
                   out := out s |}
  | InnerMul =>
      match mul_u32 (factorial s) (num s) with
      | Some f => Next {| count := count s; result := result s; num := num s;
                          factorial := f; at_pc := InnerDec; out := out s |}
      | None => Panic
      end
  | InnerDec =>
      match sub_u32 (num s) 1 with
      | Some n => Next {| count := count s; result := result s; num := n;
                          factorial := factorial s; at_pc := InnerTop;
                          out := out s |}
      | None => Panic
      end
  | AfterInner =>
      let o := (out s ++ [count_line (count s) (factorial s)])%list in
      match sub_u32 (count s) 1 with
      | Some c => Next {| count := c; result := result s; num := num s;
                          factorial := factorial s; at_pc := Outer; out := o |}
      | None => Panic
      end
  end.

Fixpoint run (fuel : nat) (s : state) : outcome :=
  match fuel with
  | O => OutOfFuel
  | S f =>
      match step s with
      | Next s' => run f s'
      | Panic => Panicked
      | Halt o => Halted o
      end
  end.

(** The states visited by [run fuel s], in order. *)
Fixpoint trace (fuel : nat) (s : state) : list state :=
  match fuel with
  | O => []
  | S f => s :: match step s with Next s' => trace f s' | _ => [] end
  end.

Inductive reachable : state -> Prop :=
  | reachable_init : reachable init
  | reachable_step s s' : reachable s -> step s = Next s' -> reachable s'.

Definition in_inner (p : pc) : bool :=
  match p with
  | InnerTop | InnerGuard | InnerMul | InnerDec => true
  | _ => false
  end.

Definition main : outcome := run 200 init.

(** The states after the first and second steps of [main]. *)
Definition sample_inner_top : state :=
  {| count := 4; result := 0; num := 10; factorial := 1;
     at_pc := InnerTop; out := [] |}.
Definition sample_guard : state :=
  {| count := 4; result := 0; num := 10; factorial := 1;
     at_pc := InnerGuard; out := [] |}.

(** Several steps of the machine. *)
Inductive star : state -> state -> Prop :=
  | star_refl s : star s s
  | star_step s s1 s' : step s = Next s1 -> star s1 s' -> star s s'.

(** Several steps, each taken from a state inside the inner loop: the inner
    loop has not been left along the way. *)
Inductive star_inner : state -> state -> Prop :=
  | star_inner_refl s : star_inner s s
  | star_inner_step s s1 s' :
      in_inner (at_pc s) = true -> step s = Next s1 -> star_inner s1 s' ->
      star_inner s s'.

(** The same program with [let mut count: u32 = c;] as first line. *)
Definition init_with (c : Z) : state :=
  {| count := c; result := 0; num := 0; factorial := 0;
     at_pc := Outer; out := [] |}.

(** [n!] as an integer. *)
Fixpoint zfact (n : nat) : Z :=
  match n with
  | O => 1
  | S k => Z.of_nat (S k) * zfact k
  end.

(** The lines printed by [c] outer iterations, starting at [count = c]. *)
Fixpoint count_lines (c : nat) : list string :=
  match c with
  | O => []
  | S k => count_line (Z.of_nat (S k)) 3628800 :: count_lines k
  end.

End ControlFlow.

(** ** Floating point: IEEE 754 binary32/binary64 through [SpecFloat]

    [SpecFloat] is the Standard Library's executable IEEE 754 model
    (round to nearest, ties to even). *)
Module Float.

Definition f32_prec : Z := 24.
Definition f32_emax : Z := 128.
Definition f64_prec : Z := 53.
Definition f64_emax : Z := 1024.

(** The float nearest to the decimal [c * 10^x] ([c > 0]): how rustc reads
    a float literal, and how a printed decimal is read back. *)
Definition of_decimal (prec emax c x : Z) : spec_float :=
  if 0 <=? x
  then binary_normalize prec emax (c * 10 ^ x) 0 false
  else SFdiv prec emax (S754_finite false (Z.to_pos c) 0)
                       (S754_finite false (Z.to_pos (10 ^ (- x))) 0).

(** [n as f64] for an integer [n]. *)
Definition as_float (prec emax n : Z) : spec_float :=
  binary_normalize prec emax n 0 false.

Definition sf_eqb (a b : spec_float) : bool :=
  match a, b with
  | S754_zero s, S754_zero s' => Bool.eqb s s'
  | S754_infinity s, S754_infinity s' => Bool.eqb s s'
  | S754_nan, S754_nan => true
  | S754_finite s m e, S754_finite s' m' e' =>
      Bool.eqb s s' && Pos.eqb m m' && Z.eqb e e'
  | _, _ => false
  end.

(** *** [Display] of a float: shortest round-trip digits

    Rust's [{}] on [f32]/[f64] ([core::fmt::float], [flt2dec]) prints the
    shortest digit string that reads back as the same float, the nearest
    such string to the value, laid out without exponent and with no
    fractional part when the value is integral. *)

(** A positive [m * 2^e] as the fraction [n / d]. *)
Definition to_rat (m : positive) (e : Z) : Z * Z :=
  (Zpos m * 2 ^ Z.max e 0, 2 ^ Z.max (- e) 0).

(** [floor (log10 (n / d))] for [n, d > 0]. *)
Definition dec_exp (n d : Z) : Z :=
  let k := Z.log2 d + 1 in log10 (n * 10 ^ k / d) - k.

(** [a / b] rounded to the nearest integer, ties to even. *)
Definition round_div (a b : Z) : Z :=
  let (q, r) := Z.div_eucl a b in
  match Z.compare (2 * r) b with
  | Lt => q
  | Gt => q + 1
  | Eq => if Z.even q then q else q + 1
  end.

(** [(n / d) * 10^t] rounded to the nearest integer. *)
Definition scaled_round (n d t : Z) : Z :=
  if 0 <=? t then round_div (n * 10 ^ t) d else round_div n (d * 10 ^ (- t)).

(** [(n / d) * 10^t] rounded down. *)
Definition scaled_floor (n d t : Z) : Z :=
  if 0 <=? t then (n * 10 ^ t) / d else n / (d * 10 ^ (- t)).

(** For [k] significant digits and up: the two [k]-digit decimals
    [c * 10^x] next to [v = n / d], the nearer one first; the first that
    reads back as [v] is kept.  Every other [k]-digit decimal is farther
    from [v] on the same side as one of these two, so the kept one is the
    nearest [k]-digit decimal inside the rounding interval of [v] (which is
    lopsided when the significand of [v] is a power of two). *)
Fixpoint shortest_aux (prec emax : Z) (v : spec_float) (n d p k : Z)
    (fuel : nat) : option (Z * Z) :=
  match fuel with
  | O => None
  | S f =>
      let x := p + 1 - k in
      let c := scaled_round n d (- x) in
      let fl := scaled_floor n d (- x) in
      let c2 := if c =? fl then fl + 1 else fl in
      if sf_eqb (of_decimal prec emax c x) v then Some (c, x)
      else if sf_eqb (of_decimal prec emax c2 x) v then Some (c2, x)
      else shortest_aux prec emax v n d p (k + 1) f
  end.

Fixpoint strip_zeros (fuel : nat) (c : Z) : Z :=
  match fuel with
  | O => c
  | S f => if (c mod 10 =? 0) && (0 <? c) then strip_zeros f (c / 10) else c
  end.

Fixpoint zeros (n : nat) : string :=
  match n with O => EmptyString | S k => String "0"%char (zeros k) end.

(** Layout of the digits [buf] with value [0.buf * 10^exp]
    ([flt2dec::digits_to_dec_str] with no minimum fractional digits). *)
Definition digits_to_dec_str (buf : string) (exp : Z) : string :=
  let len := Z.of_nat (String.length buf) in
  if exp <=? 0 then "0." ++ zeros (Z.to_nat (- exp)) ++ buf
  else if exp <? len
  then substring 0 (Z.to_nat exp) buf ++ "." ++
       substring (Z.to_nat exp) (Z.to_nat (len - exp)) buf
  else buf ++ zeros (Z.to_nat (exp - len)).

Definition display (prec emax : Z) (v : spec_float) : string :=
  match v with
  | S754_zero s => if s then "-0" else "0"
  | S754_infinity s => if s then "-inf" else "inf"
  | S754_nan => "NaN"
  | S754_finite s m e =>
      let '(n, d) := to_rat m e in
      match shortest_aux prec emax (S754_finite false m e) n d (dec_exp n d)
              1 40 with
      | Some (c, x) =>
          (if s then "-" else "") ++
          digits_to_dec_str (show_nat_Z (strip_zeros 40 c))
                            (x + log10 c + 1)
      | None => EmptyString
      end
  end.

Definition display_f32 := display f32_prec f32_emax.
Definition display_f64 := display f64_prec f64_emax.

End Float.

(** ** [data_types/src/main.rs] *)
Module DataTypes.
Import Float.

(** [let my_f32 : f32 = 21.321654651651651;] *)
Definition my_f32 : spec_float :=
  of_decimal f32_prec f32_emax 21321654651651651 (-15).
(** [let my_f64 : f64 = 21.21354651654165165416;] *)
Definition my_f64 : spec_float :=
  of_decimal f64_prec f64_emax 2121354651654165165416 (-20).

Definition floating_type : list string :=
  ["My F32 : " ++ display_f32 my_f32;
   "My F64 : " ++ display_f64 my_f64].

Definition f64_lit (c x : Z) : spec_float := of_decimal f64_prec f64_emax c x.

(** [let sum = 5 + 5;] (an [i32]) *)
Definition sum : option Z := add_i32 5 5.
(** [let difference = 5.5 - 6.23;] *)
Definition difference : spec_float :=
  SFsub f64_prec f64_emax (f64_lit 55 (-1)) (f64_lit 623 (-2)).
(** [let multiply = 5.5 * 20 as f64;] *)
Definition multiply : spec_float :=
  SFmul f64_prec f64_emax (f64_lit 55 (-1)) (as_float f64_prec f64_emax 20).
(** [let divide = (5 as f64) / 5.5;] *)
Definition divide : spec_float :=
  SFdiv f64_prec f64_emax (as_float f64_prec f64_emax 5) (f64_lit 55 (-1)).

(** [None] is the overflow panic of [5 + 5]. *)
Definition numeric_operation : option (list string) :=
  match sum with
  | Some s =>
      Some ["Sum : " ++ show_Z s ++ ", Difference : " ++ display_f64 difference
            ++ ", Multiple : " ++ display_f64 multiply
            ++ ", Divide : " ++ display_f64 divide]
  | None => None
  end.

Definition main : outcome :=
  match numeric_operation with
  | Some l => Halted (floating_type ++ l)%list
  | None => Panicked
  end.

End DataTypes.

(** ** [variables/src/main.rs] *)
Module Variables.

Definition HOURS_IN_DAY : Z := 24.

Definition immutable_example : list string :=
  let age := 25 in
  ["Your immutalbe age is  " ++ show_Z age].

Definition mutable_example : list string :=
  let age := 25 in
  let l1 := "Your mutalbe age is  " ++ show_Z age in
  let age := 26 in
  [l1; "Your mutalbe new age is  " ++ show_Z age].

Definition const_example : list string :=
  let AGE := 25 in
  ["You const varialbe age is " ++ show_Z AGE].

(** [keyword_example] has an empty body. *)
Definition keyword_example : list string := [].

(** [None] is an overflow panic on [i32]. *)
Definition shadowing_example : option (list string) :=
  let x := 5 in
  match add_i32 x 1 with
  | None => None
  | Some x =>
      match mul_i32 x 2 with
      | None => None
      | Some x' =>
          Some ["The value of x in the inner scope is: " ++ show_Z x';
                "The value of x is: " ++ show_Z x]
      end
  end.

Definition main : outcome :=
  Halted (immutable_example ++ mutable_example ++ const_example ++
          [("Your Global varialbe hours in a day is " ++ show_Z HOURS_IN_DAY)%string])%list.

End Variables.

Definition stdout (o : outcome) : list string :=
  match o with Halted l => l | _ => [] end.

Definition has_double_space (l : string) : bool :=
  match index 0 "  " l with Some _ => true | None => false end.

(** * Proofs *)

Module ControlFlowFacts.
Import ControlFlow.

(** *** Exhaustive exploration of the deterministic machine *)

Lemma trace_head (fuel : nat) (s : state) :
  (0 < fuel)%nat -> In s (trace fuel s).
Proof. destruct fuel; simpl; [lia | auto]. Qed.

Lemma run_halted_fuel (fuel : nat) (s : state) (o : list string) :
  run fuel s = Halted o -> (0 < fuel)%nat.
Proof. destruct fuel; simpl; [discriminate | lia]. Qed.

(** In a run that ends by returning from [main], the successor of every
    visited state is visited as well. *)
Lemma trace_closed (fuel : nat) :
  forall s o, run fuel s = Halted o ->
  forall t t', In t (trace fuel s) -> step t = Next t' -> In t' (trace fuel s).
Proof.
  induction fuel as [|f IH]; intros s o Hrun t t' Hin Hstep; [discriminate|].
  simpl in Hrun, Hin |- *.
  destruct (step s) as [s1| |o1] eqn:Hs.
  - destruct Hin as [<- | Hin].
    + rewrite Hs in Hstep. injection Hstep as <-.
      right. apply trace_head. eapply run_halted_fuel. eassumption.
    + right. eapply IH; eassumption.
  - discriminate.
  - destruct Hin as [<- | []]. congruence.
Qed.

Lemma reachable_in_trace (fuel : nat) (o : list string) :
  run fuel init = Halted o ->
  forall s, reachable s -> In s (trace fuel init).
Proof.
  intros Hrun s Hr. induction Hr as [|s s' _ IH Hstep].
  - apply trace_head. eapply run_halted_fuel. eassumption.
  - eapply trace_closed; eassumption.
Qed.

Lemma main_halts :
  run 200 init = Halted (stdout main).
Proof. vm_compute. reflexivity. Qed.

(** Every reachable state satisfies a property checked on the finite trace. *)
Lemma reachable_forallb (P : state -> bool) :
  forallb P (trace 200 init) = true -> forall s, reachable s -> P s = true.
Proof.
  intros Hall s Hr.
  rewrite forallb_forall in Hall. apply Hall.
  eapply reachable_in_trace; [apply main_halts | exact Hr].
Qed.

(** *** An inductive invariant, for any start value of [count] *)

Definition inv (s : state) : Prop :=
  0 <= count s /\
  (in_inner (at_pc s) = true -> 1 <= count s /\ 1 <= num s /\ 1 <= factorial s) /\
  (at_pc s = InnerGuard \/ at_pc s = InnerMul \/ at_pc s = InnerDec -> 2 <= num s).

Lemma inv_init : inv init.
Proof. unfold inv; simpl; repeat split; try lia; intros H; try discriminate;
  repeat destruct H as [H|H]; discriminate. Qed.

Ltac checked_op :=
  match goal with
  | H : context [add_u32 ?a ?b] |- _ => unfold add_u32 in H
  | H : context [mul_u32 ?a ?b] |- _ => unfold mul_u32 in H
  | H : context [sub_u32 ?a ?b] |- _ => unfold sub_u32 in H
  end.

Ltac close_inv :=
  unfold inv; simpl; repeat split; intros;
  repeat match goal with H : _ \/ _ |- _ => destruct H end;
  try discriminate; try nia.

Lemma inv_step (s s' : state) : inv s -> step s = Next s' -> inv s'.
Proof.
  intros (Hc & Hin & H2) Hstep. unfold step in Hstep.
  destruct s as [c r n f p o]; simpl in *.
  destruct p; simpl in *.
  - destruct (Z.eqb_spec c 0); [discriminate|].
    injection Hstep as <-. close_inv.
  - specialize (Hin eq_refl).
    destruct (Z.eqb_spec n 1).
    + destruct (add_u32 r f); [|discriminate].
      injection Hstep as <-. close_inv.
    + injection Hstep as <-. close_inv.
  - specialize (Hin eq_refl). specialize (H2 (or_introl eq_refl)).
    destruct (Z.eqb_spec c 0).
    + injection Hstep as <-. close_inv.
    + injection Hstep as <-. close_inv.
  - specialize (Hin eq_refl). specialize (H2 (or_intror (or_introl eq_refl))).
    checked_op. destruct (Z.leb_spec (f * n) u32_max); [|discriminate].
    injection Hstep as <-. close_inv.
  - specialize (Hin eq_refl).
    specialize (H2 (or_intror (or_intror eq_refl))).
    checked_op. destruct (Z.leb_spec 1 n); [|discriminate].
    injection Hstep as <-. close_inv.
  - checked_op. destruct (Z.leb_spec 1 c); [|discriminate].
    injection Hstep as <-. close_inv.
Qed.

Lemma reachable_sample_inner_top : reachable sample_inner_top.
Proof. apply (reachable_step init); [constructor | reflexivity]. Defined.

Lemma reachable_sample_guard : reachable sample_guard.
Proof.
  apply (reachable_step sample_inner_top);
    [apply reachable_sample_inner_top | reflexivity].
Defined.

Lemma reachable_inv (s : state) : reachable s -> inv s.
Proof.
  induction 1; [apply inv_init | eapply inv_step; eassumption].
Qed.

End ControlFlowFacts.

Module FactorialClaims.
Import ControlFlow ControlFlowFacts.

(** Claim C1: the factorial program prints [count = N, factorial : 3628800]
    for N = 4, 3, 2, 1 in that order and then [Result = 14515200]
    (= 4 * 3628800), and returns normally. *)
Theorem factorial_program_output :
  main = Halted ["count = 4, factorial : 3628800";
                 "count = 3, factorial : 3628800";
                 "count = 2, factorial : 3628800";
                 "count = 1, factorial : 3628800";
                 "Result = 14515200"]
  /\ 3628800 = 10 * 9 * 8 * 7 * 6 * 5 * 4 * 3 * 2 * 1
  /\ 14515200 = 4 * 3628800.
Proof. vm_compute. repeat split. Qed.

(** Claim C5: the guard [if count == 0 { continue 'counting_up; }] is never
    taken: in every reachable state at that guard [count] is non-zero and
    execution falls through to [factorial *= num]. *)
Theorem labelled_continue_dead (s : state) :
  reachable s -> at_pc s = InnerGuard ->
  count s <> 0 /\
  step s = Next {| count := count s; result := result s; num := num s;
                   factorial := factorial s; at_pc := InnerMul; out := out s |}.
Proof.
  intros Hr Hpc. destruct (reachable_inv s Hr) as (_ & Hin & _).
  rewrite Hpc in Hin. destruct (Hin eq_refl) as (Hc & _).
  split; [lia|].
  unfold step. rewrite Hpc. destruct (Z.eqb_spec (count s) 0); [lia | reflexivity].
Qed.

(** Claim C6: no reachable state of the factorial program panics: every
    checked [u32] operation ([factorial *= num], [result += ..], [num -= 1],
    [count -= 1]) has its exact result within [0, 2^32 - 1]. *)
Theorem no_u32_overflow (s : state) :
  reachable s -> step s <> Panic.
Proof.
  intros Hr.
  pose proof (reachable_forallb
                (fun s => match step s with Panic => false | _ => true end)
                ltac:(vm_compute; reflexivity) s Hr) as H.
  simpl in H. destruct (step s); [discriminate | discriminate | discriminate].
Qed.

(** Claim C7: inside the inner loop the accumulator [factorial] is at least
    1, an inner-loop step never decreases it, and entering the inner loop
    (a new outer iteration) resets it to 1. *)
Theorem factorial_accumulator_monotone (s : state) :
  reachable s ->
  (in_inner (at_pc s) = true -> 1 <= factorial s) /\
  (forall s', step s = Next s' -> in_inner (at_pc s) = true ->
     in_inner (at_pc s') = true -> factorial s <= factorial s') /\
  (forall s', step s = Next s' -> in_inner (at_pc s) = false ->
     in_inner (at_pc s') = true -> factorial s' = 1).
Proof.
  intros Hr. pose proof (reachable_inv s Hr) as (Hc & Hin & H2).
  split; [intros H; apply Hin; exact H|].
  destruct s as [c r n f p o]; simpl in *.
  split.
  - intros s' Hstep Hi Hi'. specialize (Hin Hi).
    unfold step in Hstep; simpl in Hstep.
    destruct p; simpl in Hi; try discriminate.
    + destruct (n =? 1); [destruct (add_u32 r f); [|discriminate]|];
        injection Hstep as <-; simpl in *; [discriminate | lia].
    + destruct (c =? 0); injection Hstep as <-; simpl in *;
        [discriminate | lia].
    + unfold mul_u32 in Hstep.
      specialize (H2 (or_intror (or_introl eq_refl))).
      destruct (f * n <=? u32_max); [|discriminate].
      injection Hstep as <-; simpl in *. nia.
    + destruct (sub_u32 n 1); [|discriminate].
      injection Hstep as <-; simpl in *. lia.
  - intros s' Hstep Hi Hi'.
    unfold step in Hstep; simpl in Hstep.
    destruct p; simpl in Hi; try discriminate.
    + destruct (c =? 0); [discriminate|].
      injection Hstep as <-. reflexivity.
    + destruct (sub_u32 c 1); [|discriminate].
      injection Hstep as <-. discriminate.
Qed.

(** Claim C8: all three programs run to completion and exit with status 0;
    the outer loop of the factorial program visits [count] = 4, 3, 2, 1, 0
    and leaves exactly when [count] is 0, and the inner loop is left exactly
    when [num] is 1. *)
Theorem programs_terminate (s : state) :
  reachable s ->
  exit_code main = Some 0 /\
  exit_code DataTypes.main = Some 0 /\
  exit_code Variables.main = Some 0 /\
  map count (filter (fun t => pc_eqb (at_pc t) Outer) (trace 200 init))
    = [4; 3; 2; 1; 0] /\
  (at_pc s = Outer -> ((exists o, step s = Halt o) <-> count s = 0)) /\
  (at_pc s = InnerTop ->
     ((exists s', step s = Next s' /\ at_pc s' = AfterInner) <-> num s = 1)).
Proof.
  intros Hr.
  split; [vm_compute; reflexivity|].
  split; [vm_compute; reflexivity|].
  split; [vm_compute; reflexivity|].
  split; [vm_compute; reflexivity|].
  pose proof (no_u32_overflow s Hr) as Hnp.
  split; intros Hpc; unfold step in *; rewrite Hpc in *.
  - destruct (Z.eqb_spec (count s) 0); split; intros H.
    + assumption.
    + eexists; reflexivity.
    + destruct H as [o H]; discriminate.
    + contradiction.
  - destruct (Z.eqb_spec (num s) 1); split; intros H.
    + assumption.
    + destruct (add_u32 (result s) (factorial s)); [|contradiction].
      eexists; split; reflexivity.
    + destruct H as (s' & Hs & Hp). injection Hs as <-. discriminate.
    + contradiction.
Qed.

Lemma labelled_continue_dead_witness :
  reachable sample_guard /\ at_pc sample_guard = InnerGuard /\
  count sample_guard <> 0 /\
  step sample_guard =
    Next {| count := 4; result := 0; num := 10; factorial := 1;
            at_pc := InnerMul; out := [] |}.
Proof.
  split; [apply reachable_sample_guard|]. split; [reflexivity|].
  exact (labelled_continue_dead sample_guard reachable_sample_guard eq_refl).
Defined.

Lemma no_u32_overflow_witness :
  reachable sample_guard /\ step sample_guard <> Panic.
Proof.
  split; [apply reachable_sample_guard|].
  exact (no_u32_overflow sample_guard reachable_sample_guard).
Defined.

Lemma factorial_accumulator_monotone_witness :
  reachable sample_inner_top /\
  (in_inner (at_pc sample_inner_top) = true -> 1 <= factorial sample_inner_top).
Proof.
  split; [apply reachable_sample_inner_top|].
  exact (proj1 (factorial_accumulator_monotone sample_inner_top
                  reachable_sample_inner_top)).
Defined.

Lemma programs_terminate_witness :
  reachable init /\ exit_code main = Some 0.
Proof.
  split; [constructor|].
  exact (proj1 (programs_terminate init reachable_init)).
Defined.

End FactorialClaims.

Module NumericClaims.
Import Float DataTypes.

(** Claim C2 as stated fails: the difference [5.5 - 6.23] is not the double
    nearest to -0.73 (and is not printed as [-0.73]). *)
Lemma difference_not_minus_073 :
  difference <> SFopp (f64_lit 73 (-2)) /\
  display_f64 difference <> "-0.73".
Proof. split; intro H; vm_compute in H; discriminate H. Qed.

(** Claim C2 (amended): [5 + 5] is 10; [5.5 * 20 as f64] is exactly 110;
    [(5 as f64) / 5.5] is the double nearest 10/11; [5.5 - 6.23] is
    [-6575255455960928 * 2^-53] (about -0.7300000000000004), four units in
    the last place away from the double nearest -0.73
    ([-6575255455960924 * 2^-53]); the four values are printed in the one
    line below. *)
Theorem numeric_operation_values :
  sum = Some 10 /\
  multiply = as_float f64_prec f64_emax 110 /\
  divide = SFdiv f64_prec f64_emax (as_float f64_prec f64_emax 10)
                                   (as_float f64_prec f64_emax 11) /\
  difference = S754_finite true 6575255455960928 (-53) /\
  SFopp (f64_lit 73 (-2)) = S754_finite true 6575255455960924 (-53) /\
  numeric_operation =
    Some ["Sum : 10, Difference : -0.7300000000000004, Multiple : 110, Divide : 0.9090909090909091"].
Proof. vm_compute. repeat split. Qed.

(** Claim C9: the [f32] literal loses precision: it is stored as
    [11178688 * 2^-19] = 21.3216552734375, not the literal's value, and is
    printed [My F32 : 21.321655]; the [f64] line is the default [{}]
    formatting of the stored double, [My F64 : 21.21354651654165], the
    shortest decimal reading back as that double (the 17-digit
    [21.213546516541652] denotes the same double). *)
Theorem floating_type_lines :
  floating_type = ["My F32 : 21.321655"; "My F64 : 21.21354651654165"] /\
  my_f32 = S754_finite false 11178688 (-19) /\
  11178688 * 10 ^ 15 <> 21321654651651651 * 2 ^ 19 /\
  of_decimal f64_prec f64_emax 21213546516541652 (-15) = my_f64.
Proof. vm_compute. repeat split; discriminate. Qed.

End NumericClaims.

Module VariablesClaims.
Import Variables.

(** Claim C3: in [shadowing_example], [x = 5] then [x = x + 1] gives 6; the
    inner block's [x = x * 2] gives 12, printed first; after the block the
    outer [x] prints 6. *)
Theorem shadowing_values :
  shadowing_example =
    Some ["The value of x in the inner scope is: 12";
          "The value of x is: 6"].
Proof. vm_compute. reflexivity. Qed.

(** Claim C4 as stated fails: the double space after "is" occurs in three
    of the five lines, not two. *)
Lemma double_space_count :
  length (filter has_double_space (stdout main)) = 3%nat /\
  length (filter has_double_space (stdout main)) <> 2%nat.
Proof. vm_compute. split; [reflexivity | discriminate]. Qed.

(** Claim C4 (amended): the variables program prints exactly these five
    lines in order; the double space after "is" occurs in the first three
    (the immutable and both mutable messages) and in no other. *)
Theorem variables_output :
  stdout main = ["Your immutalbe age is  25";
                 "Your mutalbe age is  25";
                 "Your mutalbe new age is  26";
                 "You const varialbe age is 25";
                 "Your Global varialbe hours in a day is 24"] /\
  map has_double_space (stdout main) = [true; true; true; false; false].
Proof. vm_compute. split; reflexivity. Qed.

(** Claim C10: [main] calls only [immutable_example], [mutable_example] and
    [const_example]; none of the lines of [shadowing_example] (nor any line
    mentioning [x]) is printed. *)
Theorem shadowing_not_printed :
  stdout main =
    (immutable_example ++ mutable_example ++ const_example ++
     [("Your Global varialbe hours in a day is " ++ show_Z HOURS_IN_DAY)%string])%list /\
  match shadowing_example with
  | Some ls => Forall (fun l => ~ In l (stdout main)) ls
  | None => False
  end /\
  Forall (fun l => index 0 "The value of x" l = None) (stdout main).
Proof.
  split; [reflexivity|]. split.
  - vm_compute. repeat constructor; simpl; intuition discriminate.
  - vm_compute. repeat constructor.
Qed.

End VariablesClaims.

Module LoopFacts.
Import ControlFlow.

Lemma zfact_pos (n : nat) : 1 <= zfact n.
Proof.
  induction n as [|k IH]; [simpl; lia|].
  change (zfact (S k)) with (Z.of_nat (S k) * zfact k). nia.
Qed.

Lemma run_star (s s' : state) :
  star s s' -> forall fuel, exists fuel', run fuel' s = run fuel s'.
Proof.
  induction 1 as [s|s s1 s' Hs _ IH]; intros fuel.
  - exists fuel. reflexivity.
  - destruct (IH fuel) as [f Hf]. exists (S f). simpl. rewrite Hs. exact Hf.
Qed.

Lemma star_trans (s1 s2 s3 : state) : star s1 s2 -> star s2 s3 -> star s1 s3.
Proof.
  induction 1 as [|a b c Hab _ IH]; intros H; [exact H|].
  eapply star_step; [exact Hab | apply IH; exact H].
Qed.

Lemma star_one (s s' : state) : step s = Next s' -> star s s'.
Proof. intros H. eapply star_step; [exact H | apply star_refl]. Qed.

(** One pass of the inner loop body when no product overflows:
    [num != 1], [count != 0], [factorial *= num], [num -= 1]. *)
Lemma inner_body (c r n f : Z) (o : list string) :
  c <> 0 -> n <> 1 -> 1 <= n -> f * n <= u32_max ->
  star {| count := c; result := r; num := n; factorial := f;
          at_pc := InnerTop; out := o |}
       {| count := c; result := r; num := n - 1; factorial := f * n;
          at_pc := InnerTop; out := o |}.
Proof.
  intros Hc Hn Hn1 Hf.
  eapply star_step.
  { unfold step; simpl. rewrite (proj2 (Z.eqb_neq n 1) Hn). reflexivity. }
  eapply star_step.
  { unfold step; simpl. rewrite (proj2 (Z.eqb_neq c 0) Hc). reflexivity. }
  eapply star_step.
  { unfold step; simpl. unfold mul_u32.
    rewrite (proj2 (Z.leb_le _ _) Hf). reflexivity. }
  apply star_one. unfold step; simpl. unfold sub_u32.
  rewrite (proj2 (Z.leb_le 1 n) Hn1). reflexivity.
Qed.

(** The inner loop from [num = n + 1] to [num == 1]. *)
Lemma inner_run_completes (n : nat) :
  forall c r f o, c <> 0 -> 0 <= f -> f * zfact (S n) <= u32_max ->
  star {| count := c; result := r; num := Z.of_nat (S n); factorial := f;
          at_pc := InnerTop; out := o |}
       {| count := c; result := r; num := 1; factorial := f * zfact (S n);
          at_pc := InnerTop; out := o |}.
Proof.
  induction n as [|m IH]; intros c r f o Hc Hf Hmax.
  - simpl. rewrite Z.mul_1_r. apply star_refl.
  - pose proof (zfact_pos m) as Hp.
    assert (Hfn : f * Z.of_nat (S (S m)) <= u32_max).
    { change (zfact (S (S m))) with (Z.of_nat (S (S m)) * zfact (S m)) in Hmax.
      change (zfact (S m)) with (Z.of_nat (S m) * zfact m) in Hmax. nia. }
    eapply star_trans.
    { apply inner_body; [exact Hc | lia | lia | exact Hfn]. }
    replace (Z.of_nat (S (S m)) - 1) with (Z.of_nat (S m)) by lia.
    replace (f * zfact (S (S m))) with (f * Z.of_nat (S (S m)) * zfact (S m))
      by (change (zfact (S (S m))) with (Z.of_nat (S (S m)) * zfact (S m)); ring).
    apply IH; [exact Hc | nia |].
    change (zfact (S (S m))) with (Z.of_nat (S (S m)) * zfact (S m)) in Hmax.
    nia.
Qed.

Lemma star_inner_trans (s1 s2 s3 : state) :
  star_inner s1 s2 -> star_inner s2 s3 -> star_inner s1 s3.
Proof.
  induction 1 as [|a b c Hin Hab _ IH]; intros H; [exact H|].
  eapply star_inner_step; [exact Hin | exact Hab | apply IH; exact H].
Qed.

Lemma inner_body_inside (c r n f : Z) (o : list string) :
  c <> 0 -> n <> 1 -> 1 <= n -> f * n <= u32_max ->
  star_inner {| count := c; result := r; num := n; factorial := f;
                at_pc := InnerTop; out := o |}
             {| count := c; result := r; num := n - 1; factorial := f * n;
                at_pc := InnerTop; out := o |}.
Proof.
  intros Hc Hn Hn1 Hf.
  eapply star_inner_step; [reflexivity| |].
  { unfold step; simpl. rewrite (proj2 (Z.eqb_neq n 1) Hn). reflexivity. }
  eapply star_inner_step; [reflexivity| |].
  { unfold step; simpl. rewrite (proj2 (Z.eqb_neq c 0) Hc). reflexivity. }
  eapply star_inner_step; [reflexivity| |].
  { unfold step; simpl. unfold mul_u32.
    rewrite (proj2 (Z.leb_le _ _) Hf). reflexivity. }
  eapply star_inner_step; [reflexivity| |apply star_inner_refl].
  unfold step; simpl. unfold sub_u32.
  rewrite (proj2 (Z.leb_le 1 n) Hn1). reflexivity.
Qed.

(** When [f * (n + 1)!] exceeds [u32::MAX] (with [f] itself a [u32]), the
    inner loop, without ever being left, reaches a [factorial *= num] whose
    product exceeds [u32::MAX], and that statement panics. *)
Theorem inner_loop_overflow (n : nat) :
  forall c r f o, c <> 0 -> 0 <= f <= u32_max -> u32_max < f * zfact (S n) ->
  exists s', star_inner {| count := c; result := r; num := Z.of_nat (S n);
                           factorial := f; at_pc := InnerTop; out := o |} s'
             /\ at_pc s' = InnerMul
             /\ u32_max < factorial s' * num s'
             /\ step s' = Panic.
Proof.
  induction n as [|m IH]; intros c r f o Hc Hf Hmax.
  - simpl in Hmax. lia.
  - pose proof (zfact_pos m) as Hp.
    destruct (Z.leb_spec (f * Z.of_nat (S (S m))) u32_max) as [Hfn|Hfn].
    + destruct (IH c r (f * Z.of_nat (S (S m))) o Hc) as (s' & Hs' & Hrest).
      { split; nia. }
      { change (zfact (S (S m))) with (Z.of_nat (S (S m)) * zfact (S m)) in Hmax.
        nia. }
      exists s'. split; [|exact Hrest].
      eapply star_inner_trans;
        [apply inner_body_inside; [exact Hc | lia | lia | exact Hfn]|].
      replace (Z.of_nat (S (S m)) - 1) with (Z.of_nat (S m)) by lia.
      exact Hs'.
    + exists {| count := c; result := r; num := Z.of_nat (S (S m));
                factorial := f; at_pc := InnerMul; out := o |}.
      split; [|split; [reflexivity | split; [exact Hfn|]]].
      * eapply star_inner_step; [reflexivity| |].
        { unfold step; cbn [at_pc num count factorial result out].
          rewrite (proj2 (Z.eqb_neq (Z.of_nat (S (S m))) 1) ltac:(lia)).
          reflexivity. }
        eapply star_inner_step; [reflexivity| |apply star_inner_refl].
        unfold step; cbn [at_pc num count factorial result out].
        rewrite (proj2 (Z.eqb_neq c 0) Hc). reflexivity.
      * unfold step; cbn [at_pc num count factorial result out]. unfold mul_u32.
        destruct (Z.leb_spec (f * Z.of_nat (S (S m))) u32_max); [lia|].
        reflexivity.
Qed.

(** One outer iteration from [count = k + 1], once the inner loop has reached
    [num == 1] with [factorial = 10!]: [result += 10!], print, [count -= 1]. *)
Lemma outer_iteration (k : nat) (r n0 f0 : Z) (o : list string) :
  r + 3628800 <= u32_max ->
  star {| count := Z.of_nat (S k); result := r; num := n0; factorial := f0;
          at_pc := Outer; out := o |}
       {| count := Z.of_nat k; result := r + 3628800; num := 1;
          factorial := 3628800; at_pc := Outer;
          out := (o ++ [count_line (Z.of_nat (S k)) 3628800])%list |}.
Proof.
  intros Hr.
  eapply star_step.
  { unfold step; cbn [at_pc count].
    rewrite (proj2 (Z.eqb_neq (Z.of_nat (S k)) 0) ltac:(lia)). reflexivity. }
  eapply star_trans.
  { pose proof (inner_run_completes 9 (Z.of_nat (S k)) r 1 o
                  ltac:(lia) ltac:(lia) ltac:(vm_compute; discriminate)) as H.
    exact H. }
  eapply star_step.
  { unfold step; cbn [at_pc num result factorial count out].
    rewrite Z.eqb_refl. unfold add_u32.
    replace (1 * zfact 10) with 3628800 by reflexivity.
    rewrite (proj2 (Z.leb_le _ _) Hr). reflexivity. }
  apply star_one.
  unfold step; cbn [at_pc num result factorial count out]. unfold sub_u32.
  destruct (Z.leb_spec 1 (Z.of_nat (S k))) as [_|]; [|lia].
  do 2 f_equal. lia.
Qed.

(** The outer loop from [count = c] to its exit. *)
Lemma outer_run_completes (c : nat) :
  forall r n0 f0 o, 0 <= r -> r + Z.of_nat c * 3628800 <= u32_max ->
  exists fuel,
    run fuel {| count := Z.of_nat c; result := r; num := n0; factorial := f0;
                at_pc := Outer; out := o |}
    = Halted (o ++ count_lines c ++ [result_line (r + Z.of_nat c * 3628800)])%list.
Proof.
  induction c as [|k IH]; intros r n0 f0 o Hr Hmax.
  - exists 1%nat. simpl. rewrite Z.add_0_r. reflexivity.
  - destruct (IH (r + 3628800) 1 3628800
                 (o ++ [count_line (Z.of_nat (S k)) 3628800])%list
                 ltac:(lia) ltac:(lia)) as [fuel Hrun].
    destruct (run_star _ _ (outer_iteration k r n0 f0 o ltac:(lia)) fuel)
      as [fuel' Hfuel'].
    exists fuel'. rewrite Hfuel', Hrun.
    rewrite <- app_assoc. cbn [app count_lines].
    replace (r + 3628800 + Z.of_nat k * 3628800)
      with (r + Z.of_nat (S k) * 3628800) by lia.
    reflexivity.
Qed.

(** The point where [result += loop { .. }] overflows. *)
Lemma outer_overflow_path (c : nat) :
  forall r n0 f0 o, 0 <= r <= u32_max -> u32_max < r + Z.of_nat c * 3628800 ->
  exists s', star {| count := Z.of_nat c; result := r; num := n0;
                     factorial := f0; at_pc := Outer; out := o |} s'
             /\ at_pc s' = InnerTop /\ num s' = 1
             /\ u32_max < result s' + factorial s'
             /\ step s' = Panic.
Proof.
  induction c as [|k IH]; intros r n0 f0 o Hr Hmax.
  - lia.
  - destruct (Z.leb_spec (r + 3628800) u32_max) as [Hle|Hgt].
    + destruct (IH (r + 3628800) 1 3628800
                   (o ++ [count_line (Z.of_nat (S k)) 3628800])%list
                   ltac:(lia) ltac:(lia)) as (s' & Hs' & Hrest).
      exists s'. split; [|exact Hrest].
      eapply star_trans; [apply (outer_iteration k r n0 f0 o Hle) | exact Hs'].
    + exists {| count := Z.of_nat (S k); result := r; num := 1;
                factorial := 1 * zfact 10; at_pc := InnerTop; out := o |}.
      split; [|split; [reflexivity | split; [reflexivity | split]]].
      * eapply star_step.
        { unfold step; cbn [at_pc count].
          rewrite (proj2 (Z.eqb_neq (Z.of_nat (S k)) 0) ltac:(lia)).
          reflexivity. }
        apply (inner_run_completes 9); [lia | lia | vm_compute; discriminate].
      * cbn [result factorial]. replace (1 * zfact 10) with 3628800 by reflexivity.
        exact Hgt.
      * unfold step; cbn [at_pc num result factorial count out].
        rewrite Z.eqb_refl. unfold add_u32.
        replace (1 * zfact 10) with 3628800 by reflexivity.
        destruct (Z.leb_spec (r + 3628800) u32_max); [lia | reflexivity].
Qed.

Lemma panic_run (s s' : state) :
  star s s' -> step s' = Panic -> exists fuel, run fuel s = Panicked.
Proof.
  intros Hs Hp. destruct (run_star s s' Hs 1) as [fuel Hf].
  exists fuel. rewrite Hf. simpl. rewrite Hp. reflexivity.
Qed.

(** The inner loop, entered with [num = n + 1] and an accumulator [f],
    multiplies [f] by [n + 1], [n], ..., [2] and reaches [num == 1] with
    [factorial = f * (n + 1)!], provided that product fits in a [u32]. *)
Theorem inner_loop_completes (n : nat) :
  forall c r f o, c <> 0 -> 0 <= f -> f * zfact (S n) <= u32_max ->
  star {| count := c; result := r; num := Z.of_nat (S n); factorial := f;
          at_pc := InnerTop; out := o |}
       {| count := c; result := r; num := 1; factorial := f * zfact (S n);
          at_pc := InnerTop; out := o |}.
Proof. exact (inner_run_completes n). Qed.

(** For any [count = c] and partial [result = r] at the head of the outer
    loop, if [r + c * 10!] fits in a [u32], the program prints one line
    [count = i, factorial : 3628800] for i = c, ..., 1, then
    [Result = r + c * 10!], and returns. *)
Theorem outer_loop_completes (c : nat) :
  forall r n0 f0 o, 0 <= r -> r + Z.of_nat c * 3628800 <= u32_max ->
  exists fuel,
    run fuel {| count := Z.of_nat c; result := r; num := n0; factorial := f0;
                at_pc := Outer; out := o |}
    = Halted (o ++ count_lines c ++ [result_line (r + Z.of_nat c * 3628800)])%list.
Proof. exact (outer_run_completes c). Qed.

(** If [r + c * 10!] exceeds [u32::MAX], execution reaches the end of an
    inner loop ([num == 1]) where [result += loop { .. }] would exceed
    [u32::MAX]; that addition panics, and so does the program. *)
Theorem outer_loop_overflow (c : nat) :
  forall r n0 f0 o, 0 <= r <= u32_max -> u32_max < r + Z.of_nat c * 3628800 ->
  (exists s', star {| count := Z.of_nat c; result := r; num := n0;
                      factorial := f0; at_pc := Outer; out := o |} s'
              /\ at_pc s' = InnerTop /\ num s' = 1
              /\ u32_max < result s' + factorial s'
              /\ step s' = Panic) /\
  exists fuel,
    run fuel {| count := Z.of_nat c; result := r; num := n0; factorial := f0;
                at_pc := Outer; out := o |} = Panicked.
Proof.
  intros r n0 f0 o Hr Hmax.
  destruct (outer_overflow_path c r n0 f0 o Hr Hmax) as (s' & Hs & Hrest).
  split; [exists s'; split; [exact Hs | exact Hrest]|].
  apply (panic_run _ s' Hs). apply Hrest.
Qed.

(** With [let mut count: u32 = c;] for any [u32] value [c], the program
    returns normally after printing [c] count lines and
    [Result = c * 3628800] exactly when [c <= 1183]; for [c >= 1184]
    execution reaches a [result += loop { .. }] whose sum exceeds
    [u32::MAX], which panics, and the program panics. *)
Theorem start_count_threshold (c : Z) :
  0 <= c <= u32_max ->
  (c <= 1183 -> exists fuel,
     run fuel (init_with c)
     = Halted (count_lines (Z.to_nat c) ++ [result_line (c * 3628800)])%list) /\
  (1184 <= c ->
     (exists s', star (init_with c) s'
                 /\ at_pc s' = InnerTop /\ num s' = 1
                 /\ u32_max < result s' + factorial s'
                 /\ step s' = Panic) /\
     exists fuel, run fuel (init_with c) = Panicked).
Proof.
  intros Hc. unfold init_with.
  split; intros Hb.
  - destruct (outer_run_completes (Z.to_nat c) 0 0 0 [] ltac:(lia)
                ltac:(unfold u32_max; lia)) as [fuel H].
    rewrite Z2Nat.id in H by lia.
    exists fuel. rewrite H. reflexivity.
  - destruct (outer_overflow_path (Z.to_nat c) 0 0 0 []
                ltac:(unfold u32_max; lia) ltac:(unfold u32_max; lia))
      as (s' & Hs & Hrest).
    rewrite Z2Nat.id in Hs by lia.
    split; [exists s'; split; [exact Hs | exact Hrest]|].
    apply (panic_run _ s' Hs). apply Hrest.
Qed.

Lemma inner_loop_completes_witness :
  (4 : Z) <> 0 /\ 0 <= 1 /\ 1 * zfact 10 <= u32_max /\
  star {| count := 4; result := 0; num := Z.of_nat 10; factorial := 1;
          at_pc := InnerTop; out := [] |}
       {| count := 4; result := 0; num := 1; factorial := 1 * zfact 10;
          at_pc := InnerTop; out := [] |}.
Proof.
  assert (H : 1 * zfact 10 <= u32_max) by (vm_compute; discriminate).
  split; [lia|]. split; [lia|]. split; [exact H|].
  exact (inner_loop_completes 9 4 0 1 [] ltac:(lia) ltac:(lia) H).
Defined.

Lemma inner_loop_overflow_witness :
  (1 : Z) <> 0 /\ 0 <= 1 <= u32_max /\ u32_max < 1 * zfact 13 /\
  exists s', star_inner {| count := 1; result := 0; num := Z.of_nat 13;
                           factorial := 1; at_pc := InnerTop; out := [] |} s'
             /\ at_pc s' = InnerMul
             /\ u32_max < factorial s' * num s'
             /\ step s' = Panic.
Proof.
  assert (H : u32_max < 1 * zfact 13) by (vm_compute; reflexivity).
  split; [lia|]. split; [unfold u32_max; lia|]. split; [exact H|].
  exact (inner_loop_overflow 12 1 0 1 [] ltac:(lia)
           ltac:(unfold u32_max; lia) H).
Defined.

Lemma outer_loop_completes_witness :
  0 <= 0 /\ 0 + Z.of_nat 4 * 3628800 <= u32_max /\
  exists fuel,
    run fuel {| count := Z.of_nat 4; result := 0; num := 0; factorial := 0;
                at_pc := Outer; out := [] |}
    = Halted ([] ++ count_lines 4 ++ [result_line (0 + Z.of_nat 4 * 3628800)])%list.
Proof.
  assert (H : 0 + Z.of_nat 4 * 3628800 <= u32_max)
    by (unfold u32_max; simpl; lia).
  split; [lia|]. split; [exact H|].
  exact (outer_loop_completes 4 0 0 0 [] ltac:(lia) H).
Defined.

Lemma outer_loop_overflow_witness :
  0 <= 0 <= u32_max /\ u32_max < 0 + Z.of_nat 1184 * 3628800 /\
  exists fuel,
    run fuel {| count := Z.of_nat 1184; result := 0; num := 0; factorial := 0;
                at_pc := Outer; out := [] |} = Panicked.
Proof.
  assert (H : u32_max < 0 + Z.of_nat 1184 * 3628800)
    by (unfold u32_max; rewrite Nat2Z.inj_succ; simpl; lia).
  split; [unfold u32_max; lia|]. split; [exact H|].
  exact (proj2 (outer_loop_overflow 1184 0 0 0 [] ltac:(unfold u32_max; lia) H)).
Defined.

Lemma start_count_threshold_witness :
  0 <= 1184 <= u32_max /\
  (1184 <= 1184 -> exists fuel, run fuel (init_with 1184) = Panicked).
Proof.
  assert (H : 0 <= 1184 <= u32_max) by (unfold u32_max; lia).
  split; [exact H|].
  intros Hb. exact (proj2 (proj2 (start_count_threshold 1184 H) Hb)).
Defined.

End LoopFacts.
